(** * devConnector: the Posts resource (routes/api/posts.js)

    A shallow embedding of the Express route handlers of the Posts
    resource.  Every handler is an [async] function with a [try]/[catch]
    around one or two Mongoose lookups, an in-memory mutation of the
    fetched document and a [save]; it is embedded here as a computation in
    a small state-and-exception monad over the document store.

    - JavaScript exceptions are the [Throw] completions of the monad; the
      handlers' [catch] blocks are written out, including the one of the
      delete-comment route, which reads an unbound identifier.
    - A handler whose promise rejects sends no response: its outcome is a
      [Throw], not a [Response].
    - The array methods the handlers call ([filter], [map], [indexOf],
      [find], [unshift], [splice]) follow ECMAScript, negative and
      out-of-range [splice] indices included.
    - The store itself does not fail: [findById] throws only on an id it
      cannot cast, and [save] and [remove] always go through.
    - [GET api/posts] has an answer of its own shape, [{ count, posts }],
      and is embedded apart from the other routes, with its own response
      type.  The sort by date is the database's; entries of equal date come
      in the order the sort used here leaves them, on which no statement
      below depends. *)

From stdpp Require Import gmap strings list fin_maps sorting.
From Stdlib Require Import ZArith Lia Ascii.

Open Scope string_scope.
Open Scope Z_scope.

(** ** Documents *)

(** ObjectIds are carried in their string form: [x.toString()] of a stored
    id and the [id] virtual of a document are that string, and
    [req.user.id] is the string the authentication middleware took from
    the token, which was issued from a user document's [id]. *)
Definition ObjectId := string.

(** Modelled from the spec: the like entries of models/Post.js, which is not
    part of the sources.  Here and below the fields are the ones the
    handlers read and write ([user], [name], [avatar], [text], [likes],
    [comments], [date]), prefixed by the name of their document. *)
Record Like := mkLike { like_user : ObjectId }.

(** Modelled from the spec: the embedded comment schema of models/Post.js,
    which is not part of the sources; [comment_id] is the [id] the route
    compares with [req.params.comment_id]. *)
Record Comment := mkComment {
  comment_id : ObjectId;
  comment_user : ObjectId;
  comment_name : string;
  comment_avatar : string;
  comment_text : string;
  comment_date : Z
}.

(** Modelled from the spec: the post schema of models/Post.js, which is not
    part of the sources; the document's own id is its key in the store. *)
Record Post := mkPost {
  post_user : ObjectId;
  post_name : string;
  post_avatar : string;
  post_text : string;
  post_likes : list Like;
  post_comments : list Comment;
  post_date : Z
}.

(** Modelled from the spec: the part of models/User.js the routes read,
    the display name and avatar copied onto posts and comments. *)
Record User := mkUser { user_name : string; user_avatar : string }.

(** The two collections the handlers touch, keyed by document id. *)
Record Store := mkStore {
  posts : gmap string Post;
  users : gmap string User
}.

(** In-place assignments to the fetched document. *)
Definition set_likes (l : list Like) (p : Post) : Post :=
  mkPost (post_user p) (post_name p) (post_avatar p) (post_text p)
         l (post_comments p) (post_date p).

Definition set_comments (c : list Comment) (p : Post) : Post :=
  mkPost (post_user p) (post_name p) (post_avatar p) (post_text p)
         (post_likes p) c (post_date p).

Definition set_posts (m : gmap string Post) (st : Store) : Store :=
  mkStore m (users st).

(** ** Responses *)

Inductive Json :=
| JMsg (msg : string)                      (* { msg } *)
| JErrors (errors : list string)           (* { errors: errors.array() } *)
| JPost (id : ObjectId) (post : Post)      (* post *)
| JPostObj (id : ObjectId) (post : Post)   (* { post } *)
| JLikes (likes : list Like)               (* post.likes *)
| JComments (comments : list Comment)      (* post.comments *)
| JText (s : string).                      (* res.send(s) *)

Record Response := mkResponse { status : Z; body : Json }.

(** [res.json(x)] without [res.status] answers 200. *)
Definition json (b : Json) : Response := mkResponse 200 b.

(** ** Exceptions and the handler monad *)

Inductive Error := CastError | TypeError | ReferenceError.

Definition err_name (e : Error) : string :=
  match e with
  | CastError => "CastError"
  | TypeError => "TypeError"
  | ReferenceError => "ReferenceError"
  end.

Inductive Completion (A : Type) :=
| Normal (a : A)
| Throw (e : Error).
Arguments Normal {A} a.
Arguments Throw {A} e.

Definition Async (A : Type) : Type := Store -> Completion A * Store.

Definition ret {A} (a : A) : Async A := fun st => (Normal a, st).

Definition throw {A} (e : Error) : Async A := fun st => (Throw e, st).

Definition bind {A B} (m : Async A) (k : A -> Async B) : Async B :=
  fun st =>
    match m st with
    | (Normal a, st') => k a st'
    | (Throw e, st') => (Throw e, st')
    end.

Definition try_catch {A} (body : Async A) (handler : Error -> Async A) : Async A :=
  fun st =>
    match body st with
    | (Normal a, st') => (Normal a, st')
    | (Throw e, st') => handler e st'
    end.

Notation "'let!' x := m 'in' k" := (bind m (fun x => k))
  (at level 20, x name, m at level 100, k at level 200).
Notation "'do!' m 'in' k" := (bind m (fun _ => k))
  (at level 20, m at level 100, k at level 200).

(** Reading a property of a value that may be [null]. *)
Definition deref {A} (o : option A) : Async A :=
  match o with
  | Some a => ret a
  | None => throw TypeError
  end.

(** ** Array methods *)

Definition strict_eq (a b : string) : bool := String.eqb a b.

Definition unshift {A} (x : A) (l : list A) : list A := x :: l.

Fixpoint indexOf (x : string) (l : list string) : Z :=
  match l with
  | [] => -1
  | y :: l' =>
      if strict_eq y x then 0
      else let i := indexOf x l' in if i <? 0 then -1 else i + 1
  end.

Definition find {A} (f : A -> bool) (l : list A) : option A := List.find f l.

(** [l.splice(start, deleteCount)]: the array left behind. *)
Definition splice {A} (start deleteCount : Z) (l : list A) : list A :=
  let len := Z.of_nat (length l) in
  let actualStart :=
    if start <? 0 then Z.max (len + start) 0 else Z.min start len in
  let actualDeleteCount := Z.min (Z.max deleteCount 0) (len - actualStart) in
  take (Z.to_nat actualStart) l
    ++ drop (Z.to_nat (actualStart + actualDeleteCount)) l.

(** The test [arr.filter(f).length > 0] and its negation [=== 0]. *)
Definition filter_length {A} (f : A -> bool) (l : list A) : Z :=
  Z.of_nat (length (List.filter f l)).

Definition server_error : Response := mkResponse 500 (JText "Server Error").
Definition post_not_found : Response := mkResponse 404 (JMsg "Post not found").
Definition not_authorized : Response := mkResponse 401 (JMsg "User not authorized").
Definition validation_failed : Response :=
  mkResponse 400 (JErrors ["Text is required"]).

(** [check('text', 'Text is required').not().isEmpty()] *)
Definition text_is_empty (text : string) : bool := strict_eq text "".

Section Handlers.

(** Mongoose's cast of a string to an ObjectId, by which [findById]
    raises [CastError]; the library is not part of the sources. *)
Variable well_formed : string -> bool.

Definition findById {D} (coll : Store -> gmap string D) (id : string)
  : Async (option D) :=
  fun st =>
    if well_formed id then (Normal (coll st !! id), st)
    else (Throw CastError, st).

(** [post.save()] and [post.remove()] of the document fetched under [id]. *)
Definition save (id : ObjectId) (post : Post) : Async unit :=
  fun st => (Normal tt, set_posts (<[id := post]> (posts st)) st).

Definition remove (id : ObjectId) : Async unit :=
  fun st => (Normal tt, set_posts (delete id (posts st)) st).

(** The [catch] block shared by the routes that recognise a malformed id. *)
Definition catch_cast (err : Error) : Async Response :=
  if strict_eq (err_name err) "CastError" then ret post_not_found
  else ret server_error.

(** The [catch] block that answers 500 whatever was thrown. *)
Definition catch_500 (err : Error) : Async Response := ret server_error.

(** The [catch (error)] block of the delete-comment route: its first
    statement reads [err], which is bound nowhere, so the block itself
    throws and nothing is sent. *)
Definition catch_unbound (error : Error) : Async Response :=
  throw ReferenceError.

(** POST api/posts; [new_id] and [now] are the id and the date the new
    document receives. *)
Definition create_post (new_id : ObjectId) (now : Z)
           (req_user_id : string) (text : string) : Async Response :=
  if text_is_empty text then ret validation_failed
  else
    try_catch
      (let! user := findById users req_user_id in
       let! u := deref user in
       let newPost :=
         mkPost req_user_id (user_name u) (user_avatar u) text [] [] now in
       do! save new_id newPost in
       ret (json (JPost new_id newPost)))
      catch_500.

(** GET api/posts/:id *)
Definition get_post (id : string) : Async Response :=
  try_catch
    (let! post := findById posts id in
     match post with
     | None => ret post_not_found
     | Some p => ret (mkResponse 200 (JPostObj id p))
     end)
    catch_cast.

(** DELETE api/posts/:id *)
Definition delete_post (id : string) (req_user_id : string) : Async Response :=
  try_catch
    (let! post := findById posts id in
     match post with
     | None => ret post_not_found
     | Some p =>
         if negb (strict_eq (post_user p) req_user_id) then ret not_authorized
         else
           do! remove id in
           ret (json (JMsg "Post removed"))
     end)
    catch_cast.

(** PUT api/posts/like/:id *)
Definition like_post (id : string) (req_user_id : string) : Async Response :=
  try_catch
    (let! post := findById posts id in
     let! p := deref post in
     if 0 <? filter_length
               (fun like => strict_eq (like_user like) req_user_id)
               (post_likes p)
     then ret (mkResponse 400 (JMsg "Post already liked"))
     else
       let p' := set_likes (unshift (mkLike req_user_id) (post_likes p)) p in
       do! save id p' in
       ret (json (JLikes (post_likes p'))))
    catch_500.

(** PUT api/posts/unlike/:id *)
Definition unlike_post (id : string) (req_user_id : string) : Async Response :=
  try_catch
    (let! post := findById posts id in
     let! p := deref post in
     if filter_length
          (fun like => strict_eq (like_user like) req_user_id)
          (post_likes p) =? 0
     then ret (mkResponse 400 (JMsg "Post has not yet been liked"))
     else
       let removeIndex := indexOf req_user_id (like_user <$> post_likes p) in
       let p' := set_likes (splice removeIndex 1 (post_likes p)) p in
       do! save id p' in
       ret (json (JLikes (post_likes p'))))
    catch_500.

(** POST api/posts/comment/:id; [new_id] and [now] are the id and the
    date the embedded comment receives. *)
Definition comment_post (new_id : ObjectId) (now : Z) (id : string)
           (req_user_id : string) (text : string) : Async Response :=
  if text_is_empty text then ret validation_failed
  else
    try_catch
      (let! user := findById users req_user_id in
       let! post := findById posts id in
       let! u := deref user in
       let newComment :=
         mkComment new_id req_user_id (user_name u) (user_avatar u) text now in
       let! p := deref post in
       let p' := set_comments (unshift newComment (post_comments p)) p in
       do! save id p' in
       ret (json (JComments (post_comments p'))))
      catch_500.

(** DELETE api/posts/comment/:id/:comment_id *)
Definition delete_comment (id : string) (comment_id_param : string)
           (req_user_id : string) : Async Response :=
  try_catch
    (let! post := findById posts id in
     let! p := deref post in
     let comment :=
       find (fun comment => strict_eq (comment_id comment) comment_id_param)
            (post_comments p) in
     match comment with
     | None => ret (mkResponse 404 (JMsg "Comment does not exists"))
     | Some c =>
         if negb (strict_eq (comment_user c) req_user_id) then ret not_authorized
         else
           let removeIndex :=
             indexOf req_user_id (comment_user <$> post_comments p) in
           let p' := set_comments (splice removeIndex 1 (post_comments p)) p in
           do! save id p' in
           ret (json (JComments (post_comments p')))
     end)
    catch_unbound.

End Handlers.

(** ** The service as a transition system *)

Inductive Op :=
| OpCreate (new_id : ObjectId) (now : Z) (req_user_id text : string)
| OpGet (id : string)
| OpDelete (id req_user_id : string)
| OpLike (id req_user_id : string)
| OpUnlike (id req_user_id : string)
| OpAddComment (new_id : ObjectId) (now : Z) (id req_user_id text : string)
| OpDeleteComment (id comment_id_param req_user_id : string).

Definition run (well_formed : string -> bool) (op : Op) : Async Response :=
  match op with
  | OpCreate new_id now uid text => create_post well_formed new_id now uid text
  | OpGet id => get_post well_formed id
  | OpDelete id uid => delete_post well_formed id uid
  | OpLike id uid => like_post well_formed id uid
  | OpUnlike id uid => unlike_post well_formed id uid
  | OpAddComment new_id now id uid text =>
      comment_post well_formed new_id now id uid text
  | OpDeleteComment id cid uid => delete_comment well_formed id cid uid
  end.

Definition exec (well_formed : string -> bool) (op : Op) (st : Store) : Store :=
  snd (run well_formed op st).

(** States reached from an empty posts collection by requests handled one
    after the other; the users collection belongs to other routes and may
    change in between. *)
Inductive reachable (well_formed : string -> bool) : Store -> Prop :=
| reachable_init us : reachable well_formed (mkStore ∅ us)
| reachable_step st op :
    reachable well_formed st -> reachable well_formed (exec well_formed op st)
| reachable_users st us :
    reachable well_formed st -> reachable well_formed (mkStore (posts st) us).

(** At most one like per user on a post, and on every stored post. *)
Definition likes_unique (p : Post) : Prop := NoDup (like_user <$> post_likes p).

Definition store_inv (st : Store) : Prop :=
  map_Forall (fun _ p => likes_unique p) (posts st).

(** What a request leaves alone: every other post, the users, and of the
    addressed post every field but the one related by [R]. *)
Definition same_but_likes (p p' : Post) : Prop :=
  p' = set_likes (post_likes p') p.

Definition same_but_comments (p p' : Post) : Prop :=
  p' = set_comments (post_comments p') p.

Definition frame (R : Post -> Post -> Prop) (id : string) (st st' : Store) : Prop :=
  users st' = users st
  /\ (forall id', id' <> id -> posts st' !! id' = posts st !! id')
  /\ exists p p', posts st !! id = Some p /\ posts st' !! id = Some p' /\ R p p'.

(** ** A concrete cast rule and sample documents *)

Definition is_hex_digit (a : ascii) : bool :=
  let n := nat_of_ascii a in
  ((48 <=? n) && (n <=? 57) || (97 <=? n) && (n <=? 102)
   || (65 <=? n) && (n <=? 70))%nat.

(** Twenty-four hexadecimal digits, the usual shape of an ObjectId. *)
Definition hex24 (s : string) : bool :=
  (String.length s =? 24)%nat && forallb is_hex_digit (String.list_ascii_of_string s).

Module Sample.

Definition alice : ObjectId := "5e9f1b2c3d4e5f6a7b8c9d01".
Definition bob : ObjectId := "5e9f1b2c3d4e5f6a7b8c9d02".
Definition post1 : ObjectId := "5ea0000000000000000000a1".
Definition post2 : ObjectId := "5ea0000000000000000000a2".
Definition absent : ObjectId := "5ea0000000000000000000ff".
Definition c1 : ObjectId := "5eb0000000000000000000c1".
Definition c2 : ObjectId := "5eb0000000000000000000c2".

Definition registered : gmap string User :=
  <[alice := mkUser "Alice" "a.png"]> (<[bob := mkUser "Bob" "b.png"]> ∅).

Definition hello : Post := mkPost alice "Alice" "a.png" "hello" [] [] 100.
Definition other : Post := mkPost bob "Bob" "b.png" "again" [mkLike alice] [] 101.

Definition first : Comment := mkComment c1 bob "Bob" "b.png" "first" 110.
Definition second : Comment := mkComment c2 bob "Bob" "b.png" "second" 120.

Definition st0 : Store := mkStore ∅ registered.
Definition st1 : Store := mkStore (<[post1 := hello]> (<[post2 := other]> ∅)) registered.
(** [post1] carrying two comments of the same author, the newer first. *)
Definition st2 : Store :=
  mkStore (<[post1 := set_comments [second; first] hello]> ∅) registered.

End Sample.

(** ** The listing route *)

Inductive ListJson :=
| LPosts (count : Z) (found : list (ObjectId * Post))   (* { count, posts } *)
| LText (s : string).                                   (* res.send(s) *)

Record ListResponse := mkListResponse { list_status : Z; list_body : ListJson }.

(** [.sort({ date: -1 })]: the newest first. *)
Definition newer_or_equal (a b : ObjectId * Post) : Prop :=
  post_date (snd b) <= post_date (snd a).

Fixpoint insert_by_date (x : ObjectId * Post) (l : list (ObjectId * Post))
  : list (ObjectId * Post) :=
  match l with
  | [] => [x]
  | y :: l' =>
      if post_date (snd y) <? post_date (snd x) then x :: y :: l'
      else y :: insert_by_date x l'
  end.

Definition sort_date_desc (l : list (ObjectId * Post)) : list (ObjectId * Post) :=
  foldr insert_by_date [] l.

(** [Post.find().sort({ date: -1 })] *)
Definition find_sorted : Async (list (ObjectId * Post)) :=
  fun st => (Normal (sort_date_desc (map_to_list (posts st))), st).

(** GET api/posts *)
Definition get_posts : Async ListResponse :=
  try_catch
    (let! found := find_sorted in
     ret (mkListResponse 200 (LPosts (Z.of_nat (length found)) found)))
    (fun err => ret (mkListResponse 500 (LText "Server Error"))).

(** ** Outcomes *)


(** The statuses each route can answer with. *)
Definition statuses (op : Op) : list Z :=
  match op with
  | OpCreate _ _ _ _ => [200; 400; 500]
  | OpGet _ => [200; 404]
  | OpDelete _ _ => [200; 401; 404]
  | OpLike _ _ | OpUnlike _ _ => [200; 400; 500]
  | OpAddComment _ _ _ _ _ => [200; 400; 500]
  | OpDeleteComment _ _ _ => [200; 401; 404]
  end.

(** The likes left when those of [uid] are taken out. *)
Definition without_user (uid : string) (likes : list Like) : list Like :=
  List.filter (fun like => negb (strict_eq (like_user like) uid)) likes.

Module Thread.

Definition c3 : ObjectId := "5eb0000000000000000000c3".

Definition third : Comment :=
  mkComment c3 Sample.alice "Alice" "a.png" "third" 130.

(** [post1] with a comment of Alice in front of two comments of Bob. *)
Definition talk : Post :=
  set_comments [third; Sample.second; Sample.first] Sample.hello.

Definition st3 : Store :=
  mkStore (<[Sample.post1 := talk]> ∅) Sample.registered.

End Thread.

(** ** Array lemmas *)

Lemma strict_eq_true (a b : string) : strict_eq a b = true <-> a = b.
Proof. apply String.eqb_eq. Qed.

Lemma strict_eq_false (a b : string) : strict_eq a b = false <-> a <> b.
Proof. apply String.eqb_neq. Qed.

Lemma strict_eq_refl (a : string) : strict_eq a a = true.
Proof. apply String.eqb_refl. Qed.

Lemma filter_length_nonneg {A} (f : A -> bool) (l : list A) :
  0 <= filter_length f l.
Proof. unfold filter_length. lia. Qed.

Lemma filter_length_zero {A} (f : A -> bool) (l : list A) :
  filter_length f l = 0 <-> forall x, x ∈ l -> f x = false.
Proof.
  unfold filter_length. induction l as [|a l IH]; simpl.
  - split; [intros _ x Hx; inversion Hx | reflexivity].
  - destruct (f a) eqn:Ha; simpl.
    + split; [lia | intros H].
      specialize (H a (list_elem_of_here a l)). congruence.
    + rewrite IH. split.
      * intros H x Hx. apply elem_of_cons in Hx as [-> | Hx]; auto.
      * intros H x Hx. apply H. by apply list_elem_of_further.
Qed.

(** The like test of both like routes, in terms of membership. *)
Lemma liked_zero (uid : string) (likes : list Like) :
  filter_length (fun like => strict_eq (like_user like) uid) likes = 0
  <-> uid ∉ like_user <$> likes.
Proof.
  rewrite filter_length_zero. split.
  - intros H Hin. apply list_elem_of_fmap in Hin as (l & -> & Hl).
    specialize (H l Hl). rewrite strict_eq_refl in H. discriminate.
  - intros H l Hl. apply strict_eq_false. intros <-.
    apply H. apply list_elem_of_fmap. eauto.
Qed.

Lemma indexOf_head (x : string) (l : list string) : indexOf x (x :: l) = 0.
Proof. simpl. by rewrite strict_eq_refl. Qed.

(** [indexOf] answers the position of the first occurrence. *)
Lemma indexOf_found (x : string) (l : list string) :
  x ∈ l ->
  0 <= indexOf x l < Z.of_nat (length l)
  /\ l !! Z.to_nat (indexOf x l) = Some x
  /\ x ∉ take (Z.to_nat (indexOf x l)) l.
Proof.
  induction l as [|y l IH]; intros Hin; [inversion Hin|].
  simpl indexOf. destruct (strict_eq y x) eqn:E.
  - apply strict_eq_true in E as ->. simpl. split; [lia|].
    split; [done | apply not_elem_of_nil].
  - apply strict_eq_false in E.
    apply elem_of_cons in Hin as [-> | Hin]; [done|].
    destruct (IH Hin) as (Hr & Hl & Ht).
    destruct (indexOf x l <? 0) eqn:Hneg; [lia|].
    replace (Z.to_nat (indexOf x l + 1)) with (S (Z.to_nat (indexOf x l))) by lia.
    simpl. split; [lia|]. split; [done|].
    intros H. apply elem_of_cons in H as [-> | H]; [done | by apply Ht].
Qed.

(** Whatever its arguments, [splice] only takes elements away. *)
Lemma splice_sublist {A} (start deleteCount : Z) (l : list A) :
  splice start deleteCount l `sublist_of` l.
Proof.
  unfold splice. cbv zeta.
  set (len := Z.of_nat (length l)).
  set (actualStart := if start <? 0 then _ else _).
  set (a := Z.to_nat actualStart). set (b := Z.to_nat _).
  assert (a <= b)%nat as Hab.
  { subst a b actualStart len. destruct (start <? 0) eqn:Hneg; lia. }
  rewrite <- (take_drop a l) at 3.
  apply sublist_app; [done|].
  replace b with (a + (b - a))%nat by lia.
  rewrite <- drop_drop. apply sublist_drop.
Qed.

(** Inside the array, [splice(i, 1)] removes the element at [i]. *)
Lemma splice_one {A} (i : Z) (l : list A) :
  0 <= i < Z.of_nat (length l) ->
  splice i 1 l = delete (Z.to_nat i) l.
Proof.
  intros Hi. unfold splice.
  replace (i <? 0) with false by lia.
  rewrite Z.min_l by lia.
  replace (Z.min (Z.max 1 0) (Z.of_nat (length l) - i)) with 1 by lia.
  replace (Z.to_nat (i + 1)) with (S (Z.to_nat i)) by lia.
  by rewrite delete_take_drop.
Qed.

Lemma splice_head {A} (x : A) (l : list A) : splice 0 1 (x :: l) = l.
Proof. rewrite splice_one; [done | simpl length; lia]. Qed.

(** ** Invariant lemmas *)

Lemma likes_unique_set_comments (c : list Comment) (p : Post) :
  likes_unique p -> likes_unique (set_comments c p).
Proof. done. Qed.

Lemma likes_unique_splice (start deleteCount : Z) (p : Post) :
  likes_unique p ->
  likes_unique (set_likes (splice start deleteCount (post_likes p)) p).
Proof.
  unfold likes_unique. simpl. intros Hp.
  eapply sublist_NoDup; [exact Hp|].
  apply fmap_sublist, splice_sublist.
Qed.

Lemma likes_unique_unshift (uid : string) (p : Post) :
  uid ∉ like_user <$> post_likes p ->
  likes_unique p ->
  likes_unique (set_likes (unshift (mkLike uid) (post_likes p)) p).
Proof.
  unfold likes_unique. simpl. intros Hn Hp. by apply NoDup_cons.
Qed.

Lemma store_inv_save (id : string) (p : Post) (st : Store) :
  likes_unique p -> store_inv st ->
  store_inv (set_posts (<[id := p]> (posts st)) st).
Proof. intros Hp Hst. unfold store_inv. simpl. by apply map_Forall_insert_2. Qed.

Lemma store_inv_remove (id : string) (st : Store) :
  store_inv st -> store_inv (set_posts (delete id (posts st)) st).
Proof. intros Hst. unfold store_inv. simpl. by apply map_Forall_delete. Qed.

(** ** The handlers, case by case *)

Ltac unfold_handler :=
  unfold create_post, get_post, delete_post, like_post, unlike_post,
    comment_post, delete_comment, try_catch, bind, findById, deref, save,
    remove, catch_cast, catch_500, catch_unbound, ret, throw, find.

Section Equations.

Variable well_formed : string -> bool.

Lemma create_post_eq new_id now uid text st :
  create_post well_formed new_id now uid text st =
  if text_is_empty text then (Normal validation_failed, st)
  else if well_formed uid then
    match users st !! uid with
    | Some u =>
        let newPost := mkPost uid (user_name u) (user_avatar u) text [] [] now in
        (Normal (json (JPost new_id newPost)),
         set_posts (<[new_id := newPost]> (posts st)) st)
    | None => (Normal server_error, st)
    end
  else (Normal server_error, st).
Proof.
  unfold_handler. destruct (text_is_empty text); [done|].
  destruct (well_formed uid); [|done]. by destruct (users st !! uid).
Qed.

Lemma get_post_eq id st :
  get_post well_formed id st =
  if well_formed id then
    match posts st !! id with
    | Some p => (Normal (mkResponse 200 (JPostObj id p)), st)
    | None => (Normal post_not_found, st)
    end
  else (Normal post_not_found, st).
Proof.
  unfold_handler. destruct (well_formed id); [|done].
  by destruct (posts st !! id).
Qed.

Lemma delete_post_eq id uid st :
  delete_post well_formed id uid st =
  if well_formed id then
    match posts st !! id with
    | Some p =>
        if strict_eq (post_user p) uid
        then (Normal (json (JMsg "Post removed")),
              set_posts (delete id (posts st)) st)
        else (Normal not_authorized, st)
    | None => (Normal post_not_found, st)
    end
  else (Normal post_not_found, st).
Proof.
  unfold_handler. destruct (well_formed id); [|done].
  destruct (posts st !! id) as [p|]; [|done].
  by destruct (strict_eq (post_user p) uid).
Qed.

Lemma like_post_eq id uid st :
  like_post well_formed id uid st =
  if well_formed id then
    match posts st !! id with
    | Some p =>
        if 0 <? filter_length (fun like => strict_eq (like_user like) uid)
                              (post_likes p)
        then (Normal (mkResponse 400 (JMsg "Post already liked")), st)
        else
          let likes' := mkLike uid :: post_likes p in
          (Normal (json (JLikes likes')),
           set_posts (<[id := set_likes likes' p]> (posts st)) st)
    | None => (Normal server_error, st)
    end
  else (Normal server_error, st).
Proof.
  unfold_handler. destruct (well_formed id); [|done].
  destruct (posts st !! id) as [p|]; [|done]. simpl.
  by destruct (0 <? filter_length _ _).
Qed.

Lemma unlike_post_eq id uid st :
  unlike_post well_formed id uid st =
  if well_formed id then
    match posts st !! id with
    | Some p =>
        if filter_length (fun like => strict_eq (like_user like) uid)
                         (post_likes p) =? 0
        then (Normal (mkResponse 400 (JMsg "Post has not yet been liked")), st)
        else
          let likes' :=
            splice (indexOf uid (like_user <$> post_likes p)) 1 (post_likes p) in
          (Normal (json (JLikes likes')),
           set_posts (<[id := set_likes likes' p]> (posts st)) st)
    | None => (Normal server_error, st)
    end
  else (Normal server_error, st).
Proof.
  unfold_handler. destruct (well_formed id); [|done].
  destruct (posts st !! id) as [p|]; [|done]. simpl.
  by destruct (filter_length _ _ =? 0).
Qed.

Lemma comment_post_eq new_id now id uid text st :
  comment_post well_formed new_id now id uid text st =
  if text_is_empty text then (Normal validation_failed, st)
  else if well_formed uid && well_formed id then
    match users st !! uid, posts st !! id with
    | Some u, Some p =>
        let newComment :=
          mkComment new_id uid (user_name u) (user_avatar u) text now in
        let comments' := newComment :: post_comments p in
        (Normal (json (JComments comments')),
         set_posts (<[id := set_comments comments' p]> (posts st)) st)
    | _, _ => (Normal server_error, st)
    end
  else (Normal server_error, st).
Proof.
  unfold_handler. destruct (text_is_empty text); [done|].
  destruct (well_formed uid); [|done]. destruct (well_formed id); [|done].
  simpl. destruct (users st !! uid); [|done]. simpl.
  by destruct (posts st !! id).
Qed.

Lemma delete_comment_eq id cid uid st :
  delete_comment well_formed id cid uid st =
  if well_formed id then
    match posts st !! id with
    | Some p =>
        match List.find (fun c => strict_eq (comment_id c) cid)
                        (post_comments p) with
        | Some c =>
            if strict_eq (comment_user c) uid then
              let comments' :=
                splice (indexOf uid (comment_user <$> post_comments p)) 1
                       (post_comments p) in
              (Normal (json (JComments comments')),
               set_posts (<[id := set_comments comments' p]> (posts st)) st)
            else (Normal not_authorized, st)
        | None => (Normal (mkResponse 404 (JMsg "Comment does not exists")), st)
        end
    | None => (Throw ReferenceError, st)
    end
  else (Throw ReferenceError, st).
Proof.
  unfold_handler. destruct (well_formed id); [|done].
  destruct (posts st !! id) as [p|]; [|done]. simpl.
  destruct (List.find _ _) as [c|]; [|done].
  by destruct (strict_eq (comment_user c) uid).
Qed.

End Equations.

Section Invariant.

Variable well_formed : string -> bool.

Lemma exec_preserves_inv (op : Op) (st : Store) :
  store_inv st -> store_inv (exec well_formed op st).
Proof.
  intros Hst. unfold exec.
  destruct op as [new_id now uid text | id | id uid | id uid | id uid
                 | new_id now id uid text | id cid uid]; simpl.
  - rewrite create_post_eq.
    destruct (text_is_empty text); [done|].
    destruct (well_formed uid); [|done].
    destruct (users st !! uid); [|done].
    apply store_inv_save; [apply NoDup_nil_2 | done].
  - rewrite get_post_eq.
    destruct (well_formed id); [|done]. by destruct (posts st !! id).
  - rewrite delete_post_eq.
    destruct (well_formed id); [|done].
    destruct (posts st !! id) as [p|]; [|done].
    destruct (strict_eq (post_user p) uid); [|done].
    by apply store_inv_remove.
  - rewrite like_post_eq.
    destruct (well_formed id); [|done].
    destruct (posts st !! id) as [p|] eqn:Hp; [|done].
    destruct (0 <? filter_length _ _) eqn:Hl; [done|].
    apply store_inv_save; [|done].
    apply likes_unique_unshift; [|by eapply (Hst id)].
    apply liked_zero.
    pose proof (filter_length_nonneg
      (fun like => strict_eq (like_user like) uid) (post_likes p)).
    lia.
  - rewrite unlike_post_eq.
    destruct (well_formed id); [|done].
    destruct (posts st !! id) as [p|] eqn:Hp; [|done].
    destruct (filter_length _ _ =? 0); [done|].
    apply store_inv_save; [|done].
    apply likes_unique_splice. by eapply (Hst id).
  - rewrite comment_post_eq.
    destruct (text_is_empty text); [done|].
    destruct (well_formed uid && well_formed id); [|done].
    destruct (users st !! uid); [|done].
    destruct (posts st !! id) as [p|] eqn:Hp; [|done].
    apply store_inv_save; [|done].
    apply likes_unique_set_comments. by eapply (Hst id).
  - rewrite delete_comment_eq.
    destruct (well_formed id); [|done].
    destruct (posts st !! id) as [p|] eqn:Hp; [|done].
    destruct (List.find _ _) as [c|]; [|done].
    destruct (strict_eq (comment_user c) uid); [|done].
    apply store_inv_save; [|done].
    apply likes_unique_set_comments. by eapply (Hst id).
Qed.

Lemma reachable_inv (st : Store) : reachable well_formed st -> store_inv st.
Proof.
  induction 1 as [us | st op _ IH | st us _ IH].
  - unfold store_inv. simpl. apply map_Forall_empty.
  - by apply exec_preserves_inv.
  - exact IH.
Qed.

(** C4: in every state reached by handling requests one after the other,
    the likes of every post hold each user at most once, and each
    operation (create, get, delete, like, unlike, add_comment,
    delete_comment) keeps it so. *)
Theorem likes_at_most_once_per_user :
  (forall st id p,
     reachable well_formed st -> posts st !! id = Some p ->
     NoDup (like_user <$> post_likes p))
  /\ (forall op st id p,
        (forall id0 p0, posts st !! id0 = Some p0 ->
                        NoDup (like_user <$> post_likes p0)) ->
        posts (snd (run well_formed op st)) !! id = Some p ->
        NoDup (like_user <$> post_likes p)).
Proof.
  split.
  - intros st id p Hreach Hp.
    exact (reachable_inv st Hreach id p Hp).
  - intros op st id p Hst Hp.
    exact (exec_preserves_inv op st Hst id p Hp).
Qed.

End Invariant.

(** ** Likes *)

Section Likes.

Variable well_formed : string -> bool.

Lemma filter_length_not_liked (uid : string) (likes : list Like) :
  uid ∉ like_user <$> likes ->
  filter_length (fun like => strict_eq (like_user like) uid) likes = 0.
Proof. apply liked_zero. Qed.

Lemma filter_length_liked (uid : string) (likes : list Like) :
  uid ∈ like_user <$> likes ->
  0 < filter_length (fun like => strict_eq (like_user like) uid) likes.
Proof.
  intros Hin.
  pose proof (filter_length_nonneg
    (fun like => strict_eq (like_user like) uid) likes) as Hge.
  destruct (decide (filter_length
    (fun like => strict_eq (like_user like) uid) likes = 0)) as [Hz|Hz]; [|lia].
  apply liked_zero in Hz. contradiction.
Qed.

Lemma set_likes_set_likes (l l' : list Like) (p : Post) :
  set_likes l (set_likes l' p) = set_likes l p.
Proof. done. Qed.

Lemma set_likes_id (p : Post) : set_likes (post_likes p) p = p.
Proof. by destruct p. Qed.

(** The first like of a user is stored in front of the others. *)
Lemma like_post_fresh (st : Store) (id : string) (p : Post) (uid : string) :
  well_formed id = true ->
  posts st !! id = Some p ->
  uid ∉ like_user <$> post_likes p ->
  like_post well_formed id uid st =
    (Normal (json (JLikes (mkLike uid :: post_likes p))),
     set_posts (<[id := set_likes (mkLike uid :: post_likes p) p]> (posts st)) st).
Proof.
  intros Hwf Hp Hn. rewrite like_post_eq, Hwf, Hp.
  by rewrite (filter_length_not_liked _ _ Hn).
Qed.

(** A like of a user who already likes the post is refused and nothing
    is written. *)
Lemma like_post_again (st : Store) (id : string) (p : Post) (uid : string) :
  well_formed id = true ->
  posts st !! id = Some p ->
  uid ∈ like_user <$> post_likes p ->
  like_post well_formed id uid st =
    (Normal (mkResponse 400 (JMsg "Post already liked")), st).
Proof.
  intros Hwf Hp Hin. rewrite like_post_eq, Hwf, Hp.
  pose proof (filter_length_liked _ _ Hin) as Hpos.
  by replace (0 <? filter_length _ _) with true by lia.
Qed.

(** C5: on an existing post that the user does not like yet, the first
    [like] succeeds and puts the user's like in front, the second one by
    the same user is refused with the 400 answer "Post already liked",
    and that second call leaves the store, hence the length of the likes
    sequence, as the first call left it. *)
Theorem like_twice (st : Store) (id : string) (p : Post) (uid : string) :
  well_formed id = true ->
  posts st !! id = Some p ->
  uid ∉ like_user <$> post_likes p ->
  exists st1 p1,
    like_post well_formed id uid st =
      (Normal (mkResponse 200 (JLikes (mkLike uid :: post_likes p))), st1)
    /\ posts st1 !! id = Some p1
    /\ post_likes p1 = mkLike uid :: post_likes p
    /\ like_post well_formed id uid st1 =
         (Normal (mkResponse 400 (JMsg "Post already liked")), st1)
    /\ forall st2 p2,
         snd (like_post well_formed id uid st1) = st2 ->
         posts st2 !! id = Some p2 ->
         length (post_likes p2) = length (post_likes p1).
Proof.
  intros Hwf Hp Hn.
  set (p1 := set_likes (mkLike uid :: post_likes p) p).
  set (st1 := set_posts (<[id := p1]> (posts st)) st).
  assert (posts st1 !! id = Some p1) as Hp1 by apply lookup_insert_eq.
  assert (like_post well_formed id uid st1 =
          (Normal (mkResponse 400 (JMsg "Post already liked")), st1)) as H2.
  { apply (like_post_again st1 id p1); [done | done |].
    simpl. apply list_elem_of_here. }
  exists st1, p1. split; [by apply like_post_fresh|].
  split; [done|]. split; [done|]. split; [done|].
  intros st2 p2 Hst2 Hp2. rewrite H2 in Hst2. simpl in Hst2. subst st2.
  congruence.
Qed.

(** C6: on an existing post that the user does not like yet, [like]
    followed by [unlike] by that user succeeds twice, answers the likes
    sequence as it was before the like and leaves the store as it was:
    same length and same members. *)
Theorem like_then_unlike (st : Store) (id : string) (p : Post) (uid : string) :
  well_formed id = true ->
  posts st !! id = Some p ->
  uid ∉ like_user <$> post_likes p ->
  exists st1,
    like_post well_formed id uid st =
      (Normal (mkResponse 200 (JLikes (mkLike uid :: post_likes p))), st1)
    /\ unlike_post well_formed id uid st1 =
         (Normal (mkResponse 200 (JLikes (post_likes p))), st).
Proof.
  intros Hwf Hp Hn.
  set (p1 := set_likes (mkLike uid :: post_likes p) p).
  exists (set_posts (<[id := p1]> (posts st)) st).
  split; [by apply like_post_fresh|].
  rewrite unlike_post_eq, Hwf. simpl posts. rewrite lookup_insert_eq.
  assert (0 < filter_length (fun like => strict_eq (like_user like) uid)
                            (post_likes p1)) as Hpos.
  { apply filter_length_liked. simpl. apply list_elem_of_here. }
  replace (filter_length _ _ =? 0) with false by lia.
  cbv zeta. simpl post_likes. rewrite fmap_cons. simpl like_user.
  rewrite indexOf_head, splice_head.
  unfold p1. rewrite set_likes_set_likes, set_likes_id.
  unfold json. f_equal.
  unfold set_posts at 1. simpl.
  rewrite insert_insert_eq, (insert_id _ _ _ Hp). by destruct st.
Qed.

(** C7: on an existing post whose likes do not hold the user, [unlike]
    is refused with the 400 answer "Post has not yet been liked" and the
    store, hence the likes sequence, is left as it was. *)
Theorem unlike_not_liked (st : Store) (id : string) (p : Post) (uid : string) :
  well_formed id = true ->
  posts st !! id = Some p ->
  uid ∉ like_user <$> post_likes p ->
  unlike_post well_formed id uid st =
    (Normal (mkResponse 400 (JMsg "Post has not yet been liked")), st).
Proof.
  intros Hwf Hp Hn. rewrite unlike_post_eq, Hwf, Hp.
  by rewrite (filter_length_not_liked _ _ Hn).
Qed.

(** [unlike] by a user who likes the post takes away that user's first
    entry, the one [indexOf] points at. *)
Lemma unlike_post_liked (st : Store) (id : string) (p : Post) (uid : string) :
  well_formed id = true ->
  posts st !! id = Some p ->
  uid ∈ like_user <$> post_likes p ->
  let i := Z.to_nat (indexOf uid (like_user <$> post_likes p)) in
  (like_user <$> post_likes p) !! i = Some uid
  /\ unlike_post well_formed id uid st =
       (Normal (json (JLikes (delete i (post_likes p)))),
        set_posts (<[id := set_likes (delete i (post_likes p)) p]> (posts st)) st).
Proof.
  intros Hwf Hp Hin. cbv zeta.
  destruct (indexOf_found _ _ Hin) as (Hrange & Hat & _).
  split; [exact Hat|].
  rewrite unlike_post_eq, Hwf, Hp.
  pose proof (filter_length_liked _ _ Hin) as Hpos.
  replace (filter_length _ _ =? 0) with false by lia.
  cbv zeta. rewrite splice_one; [done|].
  by rewrite length_fmap in Hrange.
Qed.

(** Without a post to read, both like routes fall into their [catch]
    block, which answers 500. *)
Lemma like_unlike_no_post (st : Store) (id uid : string) :
  well_formed id = false \/ posts st !! id = None ->
  like_post well_formed id uid st = (Normal server_error, st)
  /\ unlike_post well_formed id uid st = (Normal server_error, st).
Proof.
  intros H. rewrite like_post_eq, unlike_post_eq.
  destruct (well_formed id); [|done].
  destruct H as [H | ->]; done.
Qed.

End Likes.

(** ** Deleting a post *)

Section Delete.

Variable well_formed : string -> bool.

(** C8: on an existing post, [delete] by anyone but the author is refused
    with 401 and the store is left as it was; [delete] by the author
    removes the post, after which [get] of that id answers 404. *)
Theorem delete_post_by_author_only
        (st : Store) (id : string) (p : Post) (uid : string) :
  well_formed id = true ->
  posts st !! id = Some p ->
  (uid <> post_user p ->
   delete_post well_formed id uid st =
     (Normal (mkResponse 401 (JMsg "User not authorized")), st))
  /\ (uid = post_user p ->
      exists st',
        delete_post well_formed id uid st =
          (Normal (mkResponse 200 (JMsg "Post removed")), st')
        /\ posts st' !! id = None
        /\ get_post well_formed id st' =
             (Normal (mkResponse 404 (JMsg "Post not found")), st')).
Proof.
  intros Hwf Hp. split; intros Hu; rewrite delete_post_eq, Hwf, Hp.
  - by replace (strict_eq (post_user p) uid) with false
      by (symmetry; by apply strict_eq_false).
  - subst uid. rewrite strict_eq_refl.
    eexists. split; [reflexivity|].
    assert (delete id (posts st) !! id = None) as Hgone
      by apply lookup_delete_eq.
    split; [exact Hgone|].
    rewrite get_post_eq, Hwf. simpl posts. by rewrite Hgone.
Qed.

End Delete.

(** ** Comments *)

Section Comments.

Variable well_formed : string -> bool.

Lemma text_is_empty_false (text : string) :
  text <> "" -> text_is_empty text = false.
Proof. intros H. by apply strict_eq_false. Qed.

(** A valid comment request on an existing post by a registered user. *)
Lemma comment_post_ok (st : Store) (new_id : ObjectId) (now : Z)
      (id uid text : string) (p : Post) (u : User) :
  well_formed id = true -> posts st !! id = Some p ->
  well_formed uid = true -> users st !! uid = Some u ->
  text <> "" ->
  let newComment :=
    mkComment new_id uid (user_name u) (user_avatar u) text now in
  comment_post well_formed new_id now id uid text st =
    (Normal (json (JComments (newComment :: post_comments p))),
     set_posts
       (<[id := set_comments (newComment :: post_comments p) p]> (posts st)) st).
Proof.
  intros Hid Hp Huid Hu Ht. cbv zeta.
  rewrite comment_post_eq, (text_is_empty_false _ Ht), Hid, Huid.
  simpl. by rewrite Hu, Hp.
Qed.

(** C9: on an existing post, [add_comment] puts the new comment in front:
    after a comment C1 and then a comment C2 on the same post, the stored
    comments start with C2 followed by C1, and each call answers the
    whole updated comments sequence. *)
Theorem comment_post_prepends
        (st : Store) (id : string) (p : Post)
        (id1 : ObjectId) (now1 : Z) (uid1 text1 : string) (u1 : User)
        (id2 : ObjectId) (now2 : Z) (uid2 text2 : string) (u2 : User) :
  well_formed id = true -> posts st !! id = Some p ->
  well_formed uid1 = true -> users st !! uid1 = Some u1 -> text1 <> "" ->
  well_formed uid2 = true -> users st !! uid2 = Some u2 -> text2 <> "" ->
  let C1 := mkComment id1 uid1 (user_name u1) (user_avatar u1) text1 now1 in
  let C2 := mkComment id2 uid2 (user_name u2) (user_avatar u2) text2 now2 in
  exists st1 st2 p2,
    comment_post well_formed id1 now1 id uid1 text1 st =
      (Normal (mkResponse 200 (JComments (C1 :: post_comments p))), st1)
    /\ comment_post well_formed id2 now2 id uid2 text2 st1 =
         (Normal (mkResponse 200 (JComments (C2 :: C1 :: post_comments p))), st2)
    /\ posts st2 !! id = Some p2
    /\ post_comments p2 = C2 :: C1 :: post_comments p
    /\ post_comments p2 !! 0%nat = Some C2
    /\ post_comments p2 !! 1%nat = Some C1.
Proof.
  intros Hid Hp Hw1 Hu1 Ht1 Hw2 Hu2 Ht2 C1 C2.
  set (p1 := set_comments (C1 :: post_comments p) p).
  set (st1 := set_posts (<[id := p1]> (posts st)) st).
  set (p2 := set_comments (C2 :: post_comments p1) p1).
  set (st2 := set_posts (<[id := p2]> (posts st1)) st1).
  exists st1, st2, p2.
  split; [by apply comment_post_ok|].
  split.
  { apply (comment_post_ok st1 id2 now2 id uid2 text2 p1 u2); try done.
    apply lookup_insert_eq. }
  split; [apply lookup_insert_eq|]. done.
Qed.

(** The comment the delete-comment route takes away is the first one of
    the requester, whichever comment the request names. *)
Lemma delete_comment_ok (st : Store) (id cid uid : string) (p : Post) (c : Comment) :
  well_formed id = true -> posts st !! id = Some p ->
  List.find (fun c => strict_eq (comment_id c) cid) (post_comments p) = Some c ->
  comment_user c = uid ->
  let comments' :=
    splice (indexOf uid (comment_user <$> post_comments p)) 1 (post_comments p) in
  delete_comment well_formed id cid uid st =
    (Normal (json (JComments comments')),
     set_posts (<[id := set_comments comments' p]> (posts st)) st).
Proof.
  intros Hid Hp Hc Hu. cbv zeta.
  rewrite delete_comment_eq, Hid, Hp, Hc, Hu. by rewrite strict_eq_refl.
Qed.

(** When the requester wrote the newest comment and asks for an older
    one of theirs to be deleted, the newest one goes and the one asked
    for stays. *)
Lemma delete_comment_first_of_author
      (st : Store) (id cid uid : string) (p : Post) (c0 c : Comment)
      (rest : list Comment) :
  well_formed id = true -> posts st !! id = Some p ->
  post_comments p = c0 :: rest ->
  comment_user c0 = uid -> comment_id c0 <> cid ->
  List.find (fun c => strict_eq (comment_id c) cid) rest = Some c ->
  comment_user c = uid ->
  delete_comment well_formed id cid uid st =
    (Normal (json (JComments rest)),
     set_posts (<[id := set_comments rest p]> (posts st)) st)
  /\ c ∈ rest.
Proof.
  intros Hid Hp Hcs Hu0 Hne Hfind Hu. split.
  - rewrite (delete_comment_ok st id cid uid p c Hid Hp); [| |done].
    + by rewrite Hcs, fmap_cons, Hu0, indexOf_head, splice_head.
    + rewrite Hcs. simpl.
      by replace (strict_eq (comment_id c0) cid) with false
        by (symmetry; by apply strict_eq_false).
  - apply find_some in Hfind as [Hin _]. by apply list_elem_of_In.
Qed.

(** Without a post to read, the delete-comment route throws inside its
    [try] block and again inside its [catch] block: nothing is answered. *)
Lemma delete_comment_no_post (st : Store) (id cid uid : string) :
  well_formed id = false \/ posts st !! id = None ->
  delete_comment well_formed id cid uid st = (Throw ReferenceError, st).
Proof.
  intros H. rewrite delete_comment_eq.
  destruct (well_formed id); [|done].
  destruct H as [H | ->]; done.
Qed.

End Comments.

(** ** What a request leaves alone *)

Section Frame.

Variable well_formed : string -> bool.

Lemma frame_save (R : Post -> Post -> Prop) (id : string) (p p' : Post)
      (st : Store) :
  posts st !! id = Some p -> R p p' ->
  frame R id st (set_posts (<[id := p']> (posts st)) st).
Proof.
  intros Hp HR. split; [done|]. split.
  - intros id' Hne. simpl. by apply lookup_insert_ne.
  - exists p, p'. split; [done|]. split; [apply lookup_insert_eq | done].
Qed.

(** C10: a [like] or [unlike] answered with 200 changes nothing but the
    likes of the addressed post, and an [add_comment] or [delete_comment]
    answered with 200 nothing but its comments: author, name, avatar,
    text, date and the other sequence of that post are as before, every
    other post is as before, and so are the users. *)
Theorem mutation_frame (op : Op) (st st' : Store) (r : Response) :
  run well_formed op st = (Normal r, st') ->
  status r = 200 ->
  match op with
  | OpLike id _ | OpUnlike id _ => frame same_but_likes id st st'
  | OpAddComment _ _ id _ _ | OpDeleteComment id _ _ =>
      frame same_but_comments id st st'
  | OpCreate _ _ _ _ | OpGet _ | OpDelete _ _ => True
  end.
Proof.
  intros Hrun Hok.
  destruct op as [new_id now uid text | id | id uid | id uid | id uid
                 | new_id now id uid text | id cid uid]; simpl in Hrun;
    try exact I.
  - rewrite like_post_eq in Hrun.
    destruct (well_formed id); [|by simplify_eq].
    destruct (posts st !! id) as [p|] eqn:Hp; [|by simplify_eq].
    destruct (0 <? filter_length _ _); cbv zeta in Hrun;
      simplify_eq; simpl in *; try discriminate.
    by apply (frame_save _ id p).
  - rewrite unlike_post_eq in Hrun.
    destruct (well_formed id); [|by simplify_eq].
    destruct (posts st !! id) as [p|] eqn:Hp; [|by simplify_eq].
    destruct (filter_length _ _ =? 0); cbv zeta in Hrun;
      simplify_eq; simpl in *; try discriminate.
    by apply (frame_save _ id p).
  - rewrite comment_post_eq in Hrun.
    destruct (text_is_empty text); [by simplify_eq|].
    destruct (well_formed uid && well_formed id); [|by simplify_eq].
    destruct (users st !! uid); [|by simplify_eq].
    destruct (posts st !! id) as [p|] eqn:Hp; cbv zeta in Hrun;
      simplify_eq; simpl in *; try discriminate.
    by apply (frame_save _ id p).
  - rewrite delete_comment_eq in Hrun.
    destruct (well_formed id); [|by simplify_eq].
    destruct (posts st !! id) as [p|] eqn:Hp; [|by simplify_eq].
    destruct (List.find _ _) as [c|]; [|by simplify_eq].
    destruct (strict_eq (comment_user c) uid); cbv zeta in Hrun;
      simplify_eq; simpl in *; try discriminate.
    by apply (frame_save _ id p).
Qed.

End Frame.

(** ** Where the routes depart from the contract *)

(** C1: [delete_comment] by a comment's author should remove the comment
    whose id is [comment_id] and no other comment of that author.  On a
    post whose comments are [second; first], both by the same user, the
    request to delete [first] is answered 200 and removes [second]: the
    comment asked for is still stored and the other one is gone. *)
Theorem delete_comment_removes_other_comment :
  delete_comment hex24 Sample.post1 Sample.c1 Sample.bob Sample.st2 =
    (Normal (mkResponse 200 (JComments [Sample.first])),
     mkStore (<[Sample.post1 := set_comments [Sample.first] Sample.hello]> ∅)
             Sample.registered)
  /\ comment_id Sample.first = Sample.c1
  /\ comment_id Sample.second <> Sample.c1.
Proof.
  split; [|split; [reflexivity | discriminate]].
  destruct (delete_comment_first_of_author hex24 Sample.st2 Sample.post1
              Sample.c1 Sample.bob
              (set_comments [Sample.second; Sample.first] Sample.hello)
              Sample.second Sample.first [Sample.first]
              eq_refl eq_refl eq_refl eq_refl ltac:(discriminate)
              eq_refl eq_refl) as [H _].
  rewrite H. vm_compute. reflexivity.
Qed.

(** C2: [like] and [unlike] of a post id that no post has, or of a
    malformed id, should answer 404 as [get] does.  Both routes answer 500
    "Server Error" instead, for an absent id and for a malformed one. *)
Theorem like_unlike_without_post_answer_500 :
  like_post hex24 Sample.absent Sample.bob Sample.st1 =
    (Normal (mkResponse 500 (JText "Server Error")), Sample.st1)
  /\ unlike_post hex24 Sample.absent Sample.bob Sample.st1 =
       (Normal (mkResponse 500 (JText "Server Error")), Sample.st1)
  /\ like_post hex24 "42" Sample.bob Sample.st1 =
       (Normal (mkResponse 500 (JText "Server Error")), Sample.st1)
  /\ unlike_post hex24 "42" Sample.bob Sample.st1 =
       (Normal (mkResponse 500 (JText "Server Error")), Sample.st1)
  /\ get_post hex24 Sample.absent Sample.st1 =
       (Normal (mkResponse 404 (JMsg "Post not found")), Sample.st1)
  /\ get_post hex24 "42" Sample.st1 =
       (Normal (mkResponse 404 (JMsg "Post not found")), Sample.st1).
Proof.
  pose proof (like_unlike_no_post hex24 Sample.st1 Sample.absent Sample.bob
                (or_intror eq_refl)) as [Hl Hu].
  pose proof (like_unlike_no_post hex24 Sample.st1 "42" Sample.bob
                (or_introl eq_refl)) as [Hl' Hu'].
  repeat split; try assumption; by rewrite get_post_eq.
Qed.

(** C3: [delete_comment] on a post id that no post has should answer 404.
    The route throws on the missing post, its [catch] block throws in turn
    on the unbound name it reads, and the handler ends without any answer,
    404 or other. *)
Theorem delete_comment_without_post_no_answer :
  delete_comment hex24 Sample.absent Sample.c1 Sample.bob Sample.st1 =
    (Throw ReferenceError, Sample.st1)
  /\ forall r : Response,
       (fst (delete_comment hex24 Sample.absent Sample.c1 Sample.bob Sample.st1))
       <> Normal r.
Proof.
  pose proof (delete_comment_no_post hex24 Sample.st1 Sample.absent Sample.c1
                Sample.bob (or_intror eq_refl)) as H.
  split; [exact H|]. intros r. by rewrite H.
Qed.

(** ** The theorems at sample requests *)

Lemma likes_at_most_once_per_user_witness :
  NoDup (like_user <$> [mkLike Sample.bob; mkLike Sample.alice]).
Proof.
  pose (st := exec hex24 (OpLike Sample.post2 Sample.bob) Sample.st1).
  apply (proj1 (likes_at_most_once_per_user hex24) st Sample.post2
           (set_likes [mkLike Sample.bob; mkLike Sample.alice] Sample.other)).
  - apply reachable_step.
    change Sample.st1 with
      (exec hex24 (OpLike Sample.post2 Sample.alice)
         (exec hex24 (OpCreate Sample.post2 101 Sample.bob "again")
            (exec hex24 (OpCreate Sample.post1 100 Sample.alice "hello")
               Sample.st0))).
    do 3 apply reachable_step. apply reachable_init.
  - reflexivity.
Defined.

Lemma like_twice_witness :
  hex24 Sample.post2 = true
  /\ posts Sample.st1 !! Sample.post2 = Some Sample.other
  /\ (Sample.bob ∉ like_user <$> post_likes Sample.other)
  /\ exists st1 p1,
       like_post hex24 Sample.post2 Sample.bob Sample.st1 =
         (Normal (mkResponse 200 (JLikes [mkLike Sample.bob; mkLike Sample.alice])),
          st1)
       /\ posts st1 !! Sample.post2 = Some p1
       /\ post_likes p1 = [mkLike Sample.bob; mkLike Sample.alice]
       /\ like_post hex24 Sample.post2 Sample.bob st1 =
            (Normal (mkResponse 400 (JMsg "Post already liked")), st1)
       /\ forall st2 p2,
            snd (like_post hex24 Sample.post2 Sample.bob st1) = st2 ->
            posts st2 !! Sample.post2 = Some p2 ->
            length (post_likes p2) = length (post_likes p1).
Proof.
  assert (Sample.bob ∉ like_user <$> post_likes Sample.other) as Hn
    by (apply (bool_decide_eq_true_1 _); vm_compute; reflexivity).
  split; [reflexivity|]. split; [reflexivity|]. split; [exact Hn|].
  exact (like_twice hex24 Sample.st1 Sample.post2 Sample.other Sample.bob
           eq_refl eq_refl Hn).
Defined.

Lemma like_then_unlike_witness :
  exists st1,
    like_post hex24 Sample.post2 Sample.bob Sample.st1 =
      (Normal (mkResponse 200 (JLikes [mkLike Sample.bob; mkLike Sample.alice])),
       st1)
    /\ unlike_post hex24 Sample.post2 Sample.bob st1 =
         (Normal (mkResponse 200 (JLikes [mkLike Sample.alice])), Sample.st1).
Proof.
  apply (like_then_unlike hex24 Sample.st1 Sample.post2 Sample.other Sample.bob).
  - reflexivity.
  - reflexivity.
  - apply (bool_decide_eq_true_1 _). vm_compute. reflexivity.
Defined.

Lemma unlike_not_liked_witness :
  unlike_post hex24 Sample.post2 Sample.bob Sample.st1 =
    (Normal (mkResponse 400 (JMsg "Post has not yet been liked")), Sample.st1).
Proof.
  apply (unlike_not_liked hex24 Sample.st1 Sample.post2 Sample.other Sample.bob).
  - reflexivity.
  - reflexivity.
  - apply (bool_decide_eq_true_1 _). vm_compute. reflexivity.
Defined.

Lemma delete_post_by_author_only_witness :
  delete_post hex24 Sample.post1 Sample.bob Sample.st1 =
    (Normal (mkResponse 401 (JMsg "User not authorized")), Sample.st1)
  /\ exists st',
       delete_post hex24 Sample.post1 Sample.alice Sample.st1 =
         (Normal (mkResponse 200 (JMsg "Post removed")), st')
       /\ posts st' !! Sample.post1 = None
       /\ get_post hex24 Sample.post1 st' =
            (Normal (mkResponse 404 (JMsg "Post not found")), st').
Proof.
  split.
  - apply (delete_post_by_author_only hex24 Sample.st1 Sample.post1
             Sample.hello Sample.bob eq_refl eq_refl).
    discriminate.
  - apply (delete_post_by_author_only hex24 Sample.st1 Sample.post1
             Sample.hello Sample.alice eq_refl eq_refl).
    reflexivity.
Defined.

Lemma comment_post_prepends_witness :
  exists st1 st2 p2,
    comment_post hex24 Sample.c1 110 Sample.post1 Sample.bob "first" Sample.st1 =
      (Normal (mkResponse 200 (JComments [Sample.first])), st1)
    /\ comment_post hex24 Sample.c2 120 Sample.post1 Sample.bob "second" st1 =
         (Normal (mkResponse 200 (JComments [Sample.second; Sample.first])), st2)
    /\ posts st2 !! Sample.post1 = Some p2
    /\ post_comments p2 = [Sample.second; Sample.first]
    /\ post_comments p2 !! 0%nat = Some Sample.second
    /\ post_comments p2 !! 1%nat = Some Sample.first.
Proof.
  apply (comment_post_prepends hex24 Sample.st1 Sample.post1 Sample.hello
           Sample.c1 110 Sample.bob "first" (mkUser "Bob" "b.png")
           Sample.c2 120 Sample.bob "second" (mkUser "Bob" "b.png"));
    try reflexivity; discriminate.
Defined.

Lemma mutation_frame_witness :
  frame same_but_likes Sample.post2 Sample.st1
        (snd (run hex24 (OpLike Sample.post2 Sample.bob) Sample.st1)).
Proof.
  apply (mutation_frame hex24 (OpLike Sample.post2 Sample.bob) Sample.st1 _
           (mkResponse 200 (JLikes [mkLike Sample.bob; mkLike Sample.alice])));
    reflexivity.
Defined.

(** ** Creating, reading and deleting posts *)

Section Posts.

Variable well_formed : string -> bool.

Lemma create_post_ok (st : Store) (new_id : ObjectId) (now : Z)
      (uid text : string) (u : User) :
  well_formed uid = true -> users st !! uid = Some u -> text <> "" ->
  let newPost := mkPost uid (user_name u) (user_avatar u) text [] [] now in
  create_post well_formed new_id now uid text st =
    (Normal (json (JPost new_id newPost)),
     set_posts (<[new_id := newPost]> (posts st)) st).
Proof.
  intros Hw Hu Ht. cbv zeta.
  rewrite create_post_eq, (text_is_empty_false _ Ht), Hw. by rewrite Hu.
Qed.

(** X1: a post created by a registered user with a non-empty text is read
    back by [get] under the id it was given: the author, the author's name
    and avatar as registered, the text, and no likes or comments yet. *)
Theorem create_then_get (st : Store) (new_id : ObjectId) (now : Z)
        (uid text : string) (u : User) :
  well_formed new_id = true ->
  well_formed uid = true -> users st !! uid = Some u -> text <> "" ->
  exists st' p,
    create_post well_formed new_id now uid text st =
      (Normal (mkResponse 200 (JPost new_id p)), st')
    /\ get_post well_formed new_id st' =
         (Normal (mkResponse 200 (JPostObj new_id p)), st')
    /\ post_user p = uid /\ post_text p = text
    /\ post_name p = user_name u /\ post_avatar p = user_avatar u
    /\ post_likes p = [] /\ post_comments p = [].
Proof.
  intros Hid Hw Hu Ht.
  set (p := mkPost uid (user_name u) (user_avatar u) text [] [] now).
  exists (set_posts (<[new_id := p]> (posts st)) st), p.
  split; [by apply create_post_ok|].
  split; [|done].
  rewrite get_post_eq, Hid. simpl posts. by rewrite lookup_insert_eq.
Qed.

(** X2: a successful [create] under an id no post has yet adds that one
    post and nothing else: every other id reads as before and the number of
    posts grows by one. *)
Theorem create_post_adds_one (st : Store) (new_id : ObjectId) (now : Z)
        (uid text : string) (u : User) :
  posts st !! new_id = None ->
  well_formed uid = true -> users st !! uid = Some u -> text <> "" ->
  let st' := snd (create_post well_formed new_id now uid text st) in
  is_Some (posts st' !! new_id)
  /\ (forall id, id <> new_id -> posts st' !! id = posts st !! id)
  /\ size (posts st') = S (size (posts st))
  /\ users st' = users st.
Proof.
  intros Hfresh Hw Hu Ht. cbv zeta.
  rewrite (create_post_ok st new_id now uid text u Hw Hu Ht). simpl.
  split; [rewrite lookup_insert_eq; eauto|].
  split; [intros id Hne; by apply lookup_insert_ne|].
  split; [by apply map_size_insert_None | done].
Qed.


(** X4: once its author has deleted a post, a second [delete] of the same
    id answers 404, [like] and [unlike] of it answer 500, and
    [delete_comment] on it ends without an answer; none of them changes
    the store. *)
Theorem after_delete_post (st : Store) (id : string) (p : Post)
        (uid cid : string) :
  well_formed id = true -> posts st !! id = Some p ->
  let st' := snd (delete_post well_formed id (post_user p) st) in
  delete_post well_formed id uid st' = (Normal post_not_found, st')
  /\ like_post well_formed id uid st' = (Normal server_error, st')
  /\ unlike_post well_formed id uid st' = (Normal server_error, st')
  /\ delete_comment well_formed id cid uid st' = (Throw ReferenceError, st').
Proof.
  intros Hwf Hp. cbv zeta.
  rewrite (delete_post_eq well_formed id (post_user p) st), Hwf, Hp.
  rewrite strict_eq_refl. simpl snd.
  set (st' := set_posts (delete id (posts st)) st).
  assert (posts st' !! id = None) as Hgone by apply lookup_delete_eq.
  split; [by rewrite delete_post_eq, Hwf, Hgone|].
  destruct (like_unlike_no_post well_formed st' id uid (or_intror Hgone))
    as [Hl Hu].
  split; [done|]. split; [done|].
  by apply delete_comment_no_post; right.
Qed.

End Posts.

(** ** More on likes *)

Lemma without_user_absent (uid : string) (likes : list Like) :
  uid ∉ like_user <$> likes -> without_user uid likes = likes.
Proof.
  induction likes as [|x l IH]; intros Hn; [done|].
  rewrite fmap_cons in Hn. apply not_elem_of_cons in Hn as [Hne Hn].
  unfold without_user in *. simpl.
  replace (strict_eq (like_user x) uid) with false
    by (symmetry; apply strict_eq_false; congruence).
  simpl. by rewrite IH.
Qed.

Lemma without_user_gone (uid : string) (likes : list Like) :
  uid ∉ like_user <$> without_user uid likes.
Proof.
  intros Hin. apply list_elem_of_fmap in Hin as (x & -> & Hx).
  apply list_elem_of_In, filter_In in Hx as [_ Hx].
  by rewrite strict_eq_refl in Hx.
Qed.

Lemma without_user_others (uid v : string) (likes : list Like) :
  v <> uid ->
  (v ∈ like_user <$> without_user uid likes <-> v ∈ like_user <$> likes).
Proof.
  intros Hne. rewrite !list_elem_of_fmap. split.
  - intros (x & -> & Hx). exists x. split; [done|].
    apply list_elem_of_In, filter_In in Hx as [Hx _]. by apply list_elem_of_In.
  - intros (x & -> & Hx). exists x. split; [done|].
    apply list_elem_of_In, filter_In. split; [by apply list_elem_of_In|].
    apply negb_true_iff, strict_eq_false. done.
Qed.

(** Among likes of distinct users, removing the entry at the position of a
    user is removing that user. *)
Lemma delete_at_user (uid : string) (likes : list Like) (i : nat) :
  NoDup (like_user <$> likes) ->
  (like_user <$> likes) !! i = Some uid ->
  delete i likes = without_user uid likes.
Proof.
  revert i. induction likes as [|x l IH]; intros i Hnd Hi; [done|].
  rewrite fmap_cons in Hnd. apply NoDup_cons in Hnd as [Hx Hnd].
  destruct i as [|i]; simpl in Hi.
  - injection Hi as <-. change (delete 0%nat (x :: l)) with l.
    unfold without_user. simpl List.filter. rewrite strict_eq_refl. simpl.
    symmetry. by apply without_user_absent.
  - assert (like_user x <> uid) as Hne.
    { intros Heq. subst uid. apply Hx. by eapply list_elem_of_lookup_2. }
    unfold without_user. simpl List.filter.
    replace (strict_eq (like_user x) uid) with false
      by (symmetry; by apply strict_eq_false).
    simpl. f_equal. by apply IH.
Qed.

Section MoreLikes.

Variable well_formed : string -> bool.


(** On a post whose likes hold each user at most once, what [unlike]
    answers and stores. *)
Lemma unlike_post_unique (st : Store) (id : string) (p : Post) (uid : string) :
  well_formed id = true ->
  posts st !! id = Some p ->
  likes_unique p ->
  uid ∈ like_user <$> post_likes p ->
  unlike_post well_formed id uid st =
    (Normal (json (JLikes (without_user uid (post_likes p)))),
     set_posts
       (<[id := set_likes (without_user uid (post_likes p)) p]> (posts st)) st)
  /\ S (length (without_user uid (post_likes p))) = length (post_likes p).
Proof.
  intros Hwf Hp Hnd Hin.
  destruct (unlike_post_liked well_formed st id p uid Hwf Hp Hin) as [Hat Hrun].
  rewrite <- (delete_at_user uid (post_likes p) _ Hnd Hat).
  split; [exact Hrun|].
  rewrite length_delete.
  - apply lookup_lt_Some in Hat. rewrite length_fmap in Hat. lia.
  - rewrite list_lookup_fmap in Hat.
    destruct (post_likes p !! _) eqn:E; [eauto | discriminate].
Qed.

(** X6: on a post whose likes hold each user at most once, [unlike] by a
    user who likes it is answered 200 with the likes of all other users,
    in their order; the requester is no longer among them and everyone
    else who was still is. *)
Theorem unlike_removes_requester_only
        (st : Store) (id : string) (p : Post) (uid : string) :
  well_formed id = true ->
  posts st !! id = Some p ->
  likes_unique p ->
  uid ∈ like_user <$> post_likes p ->
  let likes' := without_user uid (post_likes p) in
  unlike_post well_formed id uid st =
    (Normal (mkResponse 200 (JLikes likes')),
     set_posts (<[id := set_likes likes' p]> (posts st)) st)
  /\ (uid ∉ like_user <$> likes')
  /\ (forall v, v <> uid ->
        (v ∈ like_user <$> likes' <-> v ∈ like_user <$> post_likes p))
  /\ S (length likes') = length (post_likes p).
Proof.
  intros Hwf Hp Hnd Hin. cbv zeta.
  destruct (unlike_post_unique st id p uid Hwf Hp Hnd Hin) as [Hrun Hlen].
  split; [exact Hrun|].
  split; [apply without_user_gone|].
  split; [intros v Hv; by apply without_user_others | exact Hlen].
Qed.

(** X7: on such a post, [unlike] followed by [like] by a user who liked it
    succeeds twice and moves that user's like to the front, the likes of
    the others keeping their order. *)
Theorem unlike_then_like
        (st : Store) (id : string) (p : Post) (uid : string) :
  well_formed id = true ->
  posts st !! id = Some p ->
  likes_unique p ->
  uid ∈ like_user <$> post_likes p ->
  exists st1 st2,
    unlike_post well_formed id uid st =
      (Normal (mkResponse 200 (JLikes (without_user uid (post_likes p)))), st1)
    /\ like_post well_formed id uid st1 =
         (Normal (mkResponse 200
                    (JLikes (mkLike uid :: without_user uid (post_likes p)))),
          st2)
    /\ posts st2 !! id =
         Some (set_likes (mkLike uid :: without_user uid (post_likes p)) p).
Proof.
  intros Hwf Hp Hnd Hin.
  destruct (unlike_post_unique st id p uid Hwf Hp Hnd Hin) as [Hrun _].
  pose proof (without_user_gone uid (post_likes p)) as Hgone.
  set (l' := without_user uid (post_likes p)) in *.
  set (st1 := set_posts (<[id := set_likes l' p]> (posts st)) st) in *.
  assert (posts st1 !! id = Some (set_likes l' p)) as Hp1
    by apply lookup_insert_eq.
  exists st1, (set_posts (<[id := set_likes (mkLike uid :: l') (set_likes l' p)]>
                           (posts st1)) st1).
  split; [exact Hrun|]. split.
  - by rewrite (like_post_fresh well_formed st1 id (set_likes l' p) uid Hwf Hp1).
  - simpl. by rewrite lookup_insert_eq.
Qed.

End MoreLikes.

(** ** More on comments *)

Lemma find_first_match {A} (f : A -> bool) (pre suf : list A) (c : A) :
  (forall x, x ∈ pre -> f x = false) -> f c = true ->
  List.find f (pre ++ c :: suf) = Some c.
Proof.
  induction pre as [|y pre IH]; intros Hpre Hc; simpl.
  - by rewrite Hc.
  - rewrite (Hpre y (list_elem_of_here y pre)). apply IH; [|done].
    intros x Hx. apply Hpre. by apply list_elem_of_further.
Qed.

Lemma find_no_match {A} (f : A -> bool) (l : list A) :
  (forall x, x ∈ l -> f x = false) -> List.find f l = None.
Proof.
  induction l as [|y l IH]; intros Hl; simpl; [done|].
  rewrite (Hl y (list_elem_of_here y l)). apply IH.
  intros x Hx. apply Hl. by apply list_elem_of_further.
Qed.

Lemma indexOf_first_match (x : string) (pre suf : list string) :
  x ∉ pre -> indexOf x (pre ++ x :: suf) = Z.of_nat (length pre).
Proof.
  induction pre as [|y pre IH]; intros Hn.
  - apply indexOf_head.
  - apply not_elem_of_cons in Hn as [Hne Hn].
    simpl app. simpl indexOf.
    replace (strict_eq y x) with false
      by (symmetry; apply strict_eq_false; congruence).
    rewrite (IH Hn). simpl length.
    replace (Z.of_nat (length pre) <? 0) with false by lia. lia.
Qed.

Section MoreComments.

Variable well_formed : string -> bool.


(** X9: on an existing post, [delete_comment] naming an id that no comment
    of the post has answers 404 "Comment does not exists", and naming a
    comment written by someone else answers 401; in both cases the store is
    left as it was. *)
Theorem delete_comment_refusals (st : Store) (id cid uid : string) (p : Post) :
  well_formed id = true -> posts st !! id = Some p ->
  ((forall c, c ∈ post_comments p -> comment_id c <> cid) ->
   delete_comment well_formed id cid uid st =
     (Normal (mkResponse 404 (JMsg "Comment does not exists")), st))
  /\ (forall (pre : list Comment) (c : Comment) (suf : list Comment),
        post_comments p = (pre ++ c :: suf)%list ->
        (forall x, x ∈ pre -> comment_id x <> cid) ->
        comment_id c = cid -> comment_user c <> uid ->
        delete_comment well_formed id cid uid st =
          (Normal (mkResponse 401 (JMsg "User not authorized")), st)).
Proof.
  intros Hwf Hp. split.
  - intros Hnone. rewrite delete_comment_eq, Hwf, Hp.
    rewrite find_no_match; [done|].
    intros c Hc. apply strict_eq_false. by apply Hnone.
  - intros pre c suf Hcs Hpre Hc Hu.
    rewrite delete_comment_eq, Hwf, Hp, Hcs.
    rewrite (find_first_match _ pre suf c).
    + by replace (strict_eq (comment_user c) uid) with false
        by (symmetry; by apply strict_eq_false).
    + intros x Hx. apply strict_eq_false. by apply Hpre.
    + by apply strict_eq_true.
Qed.

(** X10: a [delete_comment] answered 200 takes exactly one comment away,
    and that comment was written by the requester: it is the requester's
    first comment in the sequence.  Comments of other users are never
    removed. *)
Theorem delete_comment_removes_own
        (st st' : Store) (id cid uid : string) (p : Post) (r : Response) :
  posts st !! id = Some p ->
  delete_comment well_formed id cid uid st = (Normal r, st') ->
  status r = 200 ->
  exists (i : nat) (c : Comment),
    post_comments p !! i = Some c
    /\ comment_user c = uid
    /\ (forall j x, (j < i)%nat -> post_comments p !! j = Some x ->
                    comment_user x <> uid)
    /\ r = mkResponse 200 (JComments (delete i (post_comments p)))
    /\ posts st' !! id = Some (set_comments (delete i (post_comments p)) p).
Proof.
  intros Hp Hrun Hok. rewrite delete_comment_eq in Hrun.
  destruct (well_formed id); [|by simplify_eq].
  rewrite Hp in Hrun.
  destruct (List.find _ _) as [c0|] eqn:Hfind; [|by simplify_eq].
  destruct (strict_eq (comment_user c0) uid) eqn:Hu; [|by simplify_eq].
  apply strict_eq_true in Hu. apply find_some in Hfind as [Hin _].
  assert (uid ∈ comment_user <$> post_comments p) as Huid.
  { apply list_elem_of_fmap. exists c0. split; [done | by apply list_elem_of_In]. }
  destruct (indexOf_found _ _ Huid) as (Hrange & Hat & Hbefore).
  set (i := Z.to_nat (indexOf uid (comment_user <$> post_comments p))) in *.
  rewrite list_lookup_fmap in Hat.
  destruct (post_comments p !! i) as [c|] eqn:Hc; [|discriminate].
  injection Hat as Hcu.
  rewrite length_fmap in Hrange.
  cbv zeta in Hrun. rewrite (splice_one _ _ Hrange) in Hrun. fold i in Hrun.
  injection Hrun as <- <-.
  exists i, c. split; [done|]. split; [done|]. split.
  - intros j x Hj Hx Hxu. apply Hbefore.
    apply list_elem_of_lookup. exists j.
    rewrite lookup_take_lt by done.
    by rewrite list_lookup_fmap, Hx, <- Hxu.
  - split; [done|]. simpl. apply lookup_insert_eq.
Qed.

(** X11: when the comment named in the request is the requester's first
    comment of the post, [delete_comment] removes exactly that comment:
    the comments before it and after it stay, in their order. *)
Theorem delete_comment_first_own
        (st : Store) (id cid uid : string) (p : Post)
        (pre suf : list Comment) (c : Comment) :
  well_formed id = true -> posts st !! id = Some p ->
  post_comments p = (pre ++ c :: suf)%list ->
  (forall x, x ∈ pre -> comment_id x <> cid /\ comment_user x <> uid) ->
  comment_id c = cid -> comment_user c = uid ->
  delete_comment well_formed id cid uid st =
    (Normal (mkResponse 200 (JComments (pre ++ suf)%list)),
     set_posts (<[id := set_comments (pre ++ suf)%list p]> (posts st)) st).
Proof.
  intros Hwf Hp Hcs Hpre Hc Hu.
  rewrite (delete_comment_ok well_formed st id cid uid p c Hwf Hp); [| |done].
  - rewrite Hcs, fmap_app, fmap_cons, Hu.
    rewrite indexOf_first_match.
    + rewrite length_fmap, splice_one.
      * by rewrite Nat2Z.id, delete_middle.
      * rewrite length_app. simpl length. lia.
    + intros Hin. apply list_elem_of_fmap in Hin as (x & Hx & Hxin).
      by destruct (Hpre x Hxin) as [_ Hne].
  - rewrite Hcs. apply find_first_match.
    + intros x Hx. apply strict_eq_false. by destruct (Hpre x Hx).
    + by apply strict_eq_true.
Qed.

End MoreComments.

(** ** The service as a whole *)

(** Rewrites the request at hand with the case-by-case form of its route. *)
Ltac route_cases :=
  unfold exec; simpl run;
  first [ rewrite create_post_eq | rewrite get_post_eq | rewrite delete_post_eq
        | rewrite like_post_eq | rewrite unlike_post_eq
        | rewrite comment_post_eq | rewrite delete_comment_eq ];
  cbv zeta; repeat case_match; simpl.

Section Service.

Variable well_formed : string -> bool.

(** X12: a request changes the store only if it is answered 200: every
    refused request, every request answered 500 and every request that
    ends without an answer leaves posts and users as they were. *)
Theorem store_changes_only_on_200 (op : Op) (st : Store) :
  snd (run well_formed op st) = st
  \/ exists r, fst (run well_formed op st) = Normal r /\ status r = 200.
Proof.
  destruct op; route_cases; eauto.
Qed.


(** X14: what a route answers with 200 is what is stored: after [like] or
    [unlike] the post holds the likes that were answered, after
    [add_comment] or [delete_comment] the comments that were answered,
    after [create] the post that was answered; and, the addressed id being
    well formed in the first four cases, [get] reads that post back. *)
Theorem answered_is_stored (op : Op) (st st' : Store) (r : Response) :
  run well_formed op st = (Normal r, st') ->
  match op, body r with
  | OpLike id _, JLikes l | OpUnlike id _, JLikes l =>
      exists p', posts st' !! id = Some p' /\ post_likes p' = l
                 /\ get_post well_formed id st' =
                      (Normal (mkResponse 200 (JPostObj id p')), st')
  | OpAddComment _ _ id _ _, JComments c | OpDeleteComment id _ _, JComments c =>
      exists p', posts st' !! id = Some p' /\ post_comments p' = c
                 /\ get_post well_formed id st' =
                      (Normal (mkResponse 200 (JPostObj id p')), st')
  | OpCreate new_id _ _ _, JPost id p =>
      id = new_id /\ posts st' !! new_id = Some p
  | _, _ => True
  end.
Proof.
  intros Hrun.
  destruct op as [new_id now uid text | id0 | id0 uid | id0 uid | id0 uid
                 | new_id now id0 uid text | id0 cid uid]; simpl in Hrun.
  - rewrite create_post_eq in Hrun. cbv zeta in Hrun.
    repeat case_match; simplify_eq; simpl in *; simplify_eq; try done.
    split; [done | apply lookup_insert_eq].
  - by destruct (body r).
  - by destruct (body r).
  - rewrite like_post_eq in Hrun. cbv zeta in Hrun.
    destruct (well_formed id0) eqn:Hwf; [|by simplify_eq].
    repeat case_match; simplify_eq; simpl in *; simplify_eq; try done.
    eexists. split; [apply lookup_insert_eq|]. split; [done|].
    rewrite get_post_eq, Hwf. simpl. by rewrite lookup_insert_eq.
  - rewrite unlike_post_eq in Hrun. cbv zeta in Hrun.
    destruct (well_formed id0) eqn:Hwf; [|by simplify_eq].
    repeat case_match; simplify_eq; simpl in *; simplify_eq; try done.
    eexists. split; [apply lookup_insert_eq|]. split; [done|].
    rewrite get_post_eq, Hwf. simpl. by rewrite lookup_insert_eq.
  - rewrite comment_post_eq in Hrun. cbv zeta in Hrun.
    destruct (text_is_empty text); [by simplify_eq|].
    destruct (well_formed uid); [|simpl in Hrun; by simplify_eq].
    destruct (well_formed id0) eqn:Hwf; [|simpl in Hrun; by simplify_eq].
    simpl in Hrun. repeat case_match; simplify_eq; simpl in *; simplify_eq; try done.
    eexists. split; [apply lookup_insert_eq|]. split; [done|].
    rewrite get_post_eq, Hwf. simpl. by rewrite lookup_insert_eq.
  - rewrite delete_comment_eq in Hrun. cbv zeta in Hrun.
    destruct (well_formed id0) eqn:Hwf; [|by simplify_eq].
    repeat case_match; simplify_eq; simpl in *; simplify_eq; try done.
    eexists. split; [apply lookup_insert_eq|]. split; [done|].
    rewrite get_post_eq, Hwf. simpl. by rewrite lookup_insert_eq.
Qed.

(** X15: the statuses each route can answer with.  [get] and [delete]
    answer 200, 404 or (delete) 401 and never 500; [create], [like],
    [unlike] and [add_comment] answer 200, 400 or 500 and never 404;
    [delete_comment] answers 200, 401 or 404, and it is the only route
    that can end without an answer. *)
Theorem route_statuses (op : Op) (st : Store) :
  match fst (run well_formed op st) with
  | Normal r => status r ∈ statuses op
  | Throw e =>
      e = ReferenceError /\ exists id cid uid, op = OpDeleteComment id cid uid
  end.
Proof.
  destruct op; route_cases; try set_solver; split; eauto.
Qed.

End Service.

(** ** Listing the posts *)

Lemma insert_by_date_perm (x : ObjectId * Post) (l : list (ObjectId * Post)) :
  insert_by_date x l ≡ₚ x :: l.
Proof.
  induction l as [|y l IH]; simpl; [done|].
  destruct (post_date (snd y) <? post_date (snd x)); [done|].
  rewrite IH. apply Permutation_swap.
Qed.

Lemma sort_date_desc_perm (l : list (ObjectId * Post)) : sort_date_desc l ≡ₚ l.
Proof.
  induction l as [|x l IH]; simpl; [done|].
  unfold sort_date_desc in *. simpl.
  rewrite insert_by_date_perm. by rewrite IH.
Qed.

Lemma insert_by_date_sorted (x : ObjectId * Post) (l : list (ObjectId * Post)) :
  StronglySorted newer_or_equal l ->
  StronglySorted newer_or_equal (insert_by_date x l).
Proof.
  induction 1 as [|y l Hl IH Hy]; simpl.
  - repeat constructor.
  - destruct (post_date (snd y) <? post_date (snd x)) eqn:E.
    + constructor; [by constructor|].
      constructor; [unfold newer_or_equal; lia|].
      eapply Forall_impl; [exact Hy|].
      unfold newer_or_equal. intros z Hz. lia.
    + constructor; [exact IH|].
      rewrite insert_by_date_perm. constructor; [|exact Hy].
      unfold newer_or_equal. lia.
Qed.

Lemma sort_date_desc_sorted (l : list (ObjectId * Post)) :
  StronglySorted newer_or_equal (sort_date_desc l).
Proof.
  induction l as [|x l IH]; [constructor|].
  by apply insert_by_date_sorted.
Qed.

(** X16: the listing route always answers 200 and leaves the store as it
    was; what it lists is every stored post exactly once, each under its
    id, the newest first, and [count] is the number of posts in the
    store. *)
Theorem get_posts_lists_all (st : Store) :
  exists found,
    get_posts st =
      (Normal (mkListResponse 200 (LPosts (Z.of_nat (size (posts st))) found)),
       st)
    /\ StronglySorted newer_or_equal found
    /\ (forall id p, (id, p) ∈ found <-> posts st !! id = Some p)
    /\ NoDup found.*1.
Proof.
  exists (sort_date_desc (map_to_list (posts st))).
  pose proof (sort_date_desc_perm (map_to_list (posts st))) as Hperm.
  split; [|split; [apply sort_date_desc_sorted | split]].
  - unfold get_posts, try_catch, bind, find_sorted, ret. simpl.
    apply Permutation_length in Hperm.
    by rewrite Hperm, length_map_to_list.
  - intros id p. rewrite Hperm. apply elem_of_map_to_list.
  - rewrite Hperm. apply NoDup_fst_map_to_list.
Qed.

Lemma get_posts_eq (st : Store) :
  get_posts st =
    (Normal (mkListResponse 200
               (LPosts (Z.of_nat (size (posts st)))
                       (sort_date_desc (map_to_list (posts st))))), st).
Proof.
  unfold get_posts, try_catch, bind, find_sorted, ret. simpl.
  pose proof (Permutation_length (sort_date_desc_perm (map_to_list (posts st))))
    as Hlen.
  by rewrite Hlen, length_map_to_list.
Qed.

(** In a list sorted by date, an entry strictly newer than all others comes
    first. *)
Lemma sorted_head_newest (x : ObjectId * Post) (l : list (ObjectId * Post)) :
  StronglySorted newer_or_equal l ->
  x ∈ l ->
  (forall y, y ∈ l -> y = x \/ post_date (snd y) < post_date (snd x)) ->
  exists rest, l = x :: rest.
Proof.
  intros Hs Hx Hnew. destruct l as [|h rest]; [by apply elem_of_nil in Hx|].
  destruct (Hnew h (list_elem_of_here h rest)) as [-> | Hlt]; [eauto|].
  apply elem_of_cons in Hx as [-> | Hx]; [eauto|].
  apply StronglySorted_inv in Hs as [_ Hall].
  rewrite Forall_forall in Hall. specialize (Hall x Hx).
  unfold newer_or_equal in Hall. lia.
Qed.

(** X17: a post created with a date later than that of every stored post
    heads the listing that follows, and the count answered is the number
    of posts then stored. *)
Theorem created_post_listed_first
        (well_formed : string -> bool) (st : Store) (new_id : ObjectId)
        (now : Z) (uid text : string) (u : User) :
  well_formed uid = true -> users st !! uid = Some u -> text <> "" ->
  (forall id p, posts st !! id = Some p -> post_date p < now) ->
  exists p rest st',
    create_post well_formed new_id now uid text st =
      (Normal (mkResponse 200 (JPost new_id p)), st')
    /\ get_posts st' =
         (Normal (mkListResponse 200
                    (LPosts (Z.of_nat (size (posts st'))) ((new_id, p) :: rest))),
          st').
Proof.
  intros Hw Hu Ht Hold.
  set (p := mkPost uid (user_name u) (user_avatar u) text [] [] now).
  set (st' := set_posts (<[new_id := p]> (posts st)) st).
  destruct (sorted_head_newest (new_id, p)
              (sort_date_desc (map_to_list (posts st')))) as [rest Hrest].
  - apply sort_date_desc_sorted.
  - rewrite sort_date_desc_perm. apply elem_of_map_to_list.
    apply lookup_insert_eq.
  - intros [id q] Hin. rewrite sort_date_desc_perm in Hin.
    apply elem_of_map_to_list in Hin. simpl in Hin.
    destruct (decide (new_id = id)) as [->|Hne].
    + rewrite lookup_insert_eq in Hin. left. congruence.
    + rewrite lookup_insert_ne in Hin by done. right. simpl.
      by apply (Hold id).
  - exists p, rest, st'. split.
    + by apply create_post_ok.
    + by rewrite get_posts_eq, Hrest.
Qed.

(** ** The further theorems at sample requests *)

Lemma create_then_get_witness :
  exists st' p,
    create_post hex24 Sample.post1 100 Sample.alice "hello" Sample.st0 =
      (Normal (mkResponse 200 (JPost Sample.post1 p)), st')
    /\ get_post hex24 Sample.post1 st' =
         (Normal (mkResponse 200 (JPostObj Sample.post1 p)), st')
    /\ post_user p = Sample.alice /\ post_text p = "hello"
    /\ post_name p = "Alice" /\ post_avatar p = "a.png"
    /\ post_likes p = [] /\ post_comments p = [].
Proof.
  apply (create_then_get hex24 Sample.st0 Sample.post1 100 Sample.alice "hello"
           (mkUser "Alice" "a.png")); try reflexivity.
  discriminate.
Defined.

Lemma create_post_adds_one_witness :
  let st' :=
    snd (create_post hex24 Sample.post1 100 Sample.alice "hello" Sample.st0) in
  is_Some (posts st' !! Sample.post1)
  /\ (forall id, id <> Sample.post1 -> posts st' !! id = posts Sample.st0 !! id)
  /\ size (posts st') = S (size (posts Sample.st0))
  /\ users st' = users Sample.st0.
Proof.
  apply (create_post_adds_one hex24 Sample.st0 Sample.post1 100 Sample.alice
           "hello" (mkUser "Alice" "a.png")); try reflexivity.
  discriminate.
Defined.


Lemma after_delete_post_witness :
  let st' := snd (delete_post hex24 Sample.post1 Sample.alice Sample.st1) in
  delete_post hex24 Sample.post1 Sample.bob st' = (Normal post_not_found, st')
  /\ like_post hex24 Sample.post1 Sample.bob st' = (Normal server_error, st')
  /\ unlike_post hex24 Sample.post1 Sample.bob st' = (Normal server_error, st')
  /\ delete_comment hex24 Sample.post1 Sample.c1 Sample.bob st' =
       (Throw ReferenceError, st').
Proof.
  exact (after_delete_post hex24 Sample.st1 Sample.post1 Sample.hello
           Sample.bob Sample.c1 eq_refl eq_refl).
Defined.

Lemma unlike_removes_requester_only_witness :
  unlike_post hex24 Sample.post2 Sample.alice Sample.st1 =
    (Normal (mkResponse 200 (JLikes [])),
     set_posts (<[Sample.post2 := set_likes [] Sample.other]> (posts Sample.st1))
               Sample.st1).
Proof.
  apply (unlike_removes_requester_only hex24 Sample.st1 Sample.post2
           Sample.other Sample.alice).
  - reflexivity.
  - reflexivity.
  - apply (bool_decide_eq_true_1 _). vm_compute. reflexivity.
  - apply (bool_decide_eq_true_1 _). vm_compute. reflexivity.
Defined.

Lemma unlike_then_like_witness :
  exists st1 st2,
    unlike_post hex24 Sample.post2 Sample.alice Sample.st1 =
      (Normal (mkResponse 200 (JLikes [])), st1)
    /\ like_post hex24 Sample.post2 Sample.alice st1 =
         (Normal (mkResponse 200 (JLikes [mkLike Sample.alice])), st2)
    /\ posts st2 !! Sample.post2 =
         Some (set_likes [mkLike Sample.alice] Sample.other).
Proof.
  apply (unlike_then_like hex24 Sample.st1 Sample.post2 Sample.other
           Sample.alice).
  - reflexivity.
  - reflexivity.
  - apply (bool_decide_eq_true_1 _). vm_compute. reflexivity.
  - apply (bool_decide_eq_true_1 _). vm_compute. reflexivity.
Defined.

Lemma delete_comment_refusals_witness :
  delete_comment hex24 Sample.post1 Sample.absent Sample.bob Thread.st3 =
    (Normal (mkResponse 404 (JMsg "Comment does not exists")), Thread.st3)
  /\ delete_comment hex24 Sample.post1 Thread.c3 Sample.bob Thread.st3 =
       (Normal (mkResponse 401 (JMsg "User not authorized")), Thread.st3).
Proof.
  split.
  - apply (proj1 (delete_comment_refusals hex24 Thread.st3 Sample.post1
                    Sample.absent Sample.bob Thread.talk eq_refl eq_refl)).
    intros c Hc. simpl in Hc.
    repeat (apply elem_of_cons in Hc as [-> | Hc]; [discriminate|]).
    by apply elem_of_nil in Hc.
  - apply (proj2 (delete_comment_refusals hex24 Thread.st3 Sample.post1
                    Thread.c3 Sample.bob Thread.talk eq_refl eq_refl)
             [] Thread.third [Sample.second; Sample.first]).
    + reflexivity.
    + intros x Hx. by apply elem_of_nil in Hx.
    + reflexivity.
    + discriminate.
Defined.

Lemma delete_comment_removes_own_witness :
  exists (i : nat) (c : Comment),
    post_comments Thread.talk !! i = Some c
    /\ comment_user c = Sample.bob
    /\ (forall j x, (j < i)%nat -> post_comments Thread.talk !! j = Some x ->
                    comment_user x <> Sample.bob)
    /\ mkResponse 200 (JComments [Thread.third; Sample.first]) =
         mkResponse 200 (JComments (delete i (post_comments Thread.talk)))
    /\ posts (snd (delete_comment hex24 Sample.post1 Sample.c1 Sample.bob
                     Thread.st3)) !! Sample.post1 =
         Some (set_comments (delete i (post_comments Thread.talk)) Thread.talk).
Proof.
  apply (delete_comment_removes_own hex24 Thread.st3 _ Sample.post1 Sample.c1
           Sample.bob Thread.talk); reflexivity.
Defined.

Lemma delete_comment_first_own_witness :
  delete_comment hex24 Sample.post1 Sample.c2 Sample.bob Thread.st3 =
    (Normal (mkResponse 200 (JComments [Thread.third; Sample.first])),
     set_posts
       (<[Sample.post1 := set_comments [Thread.third; Sample.first] Thread.talk]>
          (posts Thread.st3)) Thread.st3).
Proof.
  apply (delete_comment_first_own hex24 Thread.st3 Sample.post1 Sample.c2
           Sample.bob Thread.talk [Thread.third] [Sample.first] Sample.second);
    try reflexivity.
  intros x Hx. apply list_elem_of_singleton in Hx as ->.
  split; discriminate.
Defined.

Lemma answered_is_stored_witness :
  exists p',
    posts (snd (run hex24 (OpLike Sample.post2 Sample.bob) Sample.st1))
      !! Sample.post2 = Some p'
    /\ post_likes p' = [mkLike Sample.bob; mkLike Sample.alice]
    /\ get_post hex24 Sample.post2
         (snd (run hex24 (OpLike Sample.post2 Sample.bob) Sample.st1)) =
         (Normal (mkResponse 200 (JPostObj Sample.post2 p')),
          snd (run hex24 (OpLike Sample.post2 Sample.bob) Sample.st1)).
Proof.
  exact (answered_is_stored hex24 (OpLike Sample.post2 Sample.bob) Sample.st1
           _ (mkResponse 200 (JLikes [mkLike Sample.bob; mkLike Sample.alice]))
           eq_refl).
Defined.

Lemma created_post_listed_first_witness :
  exists p rest st',
    create_post hex24 Sample.absent 200 Sample.bob "newest" Sample.st1 =
      (Normal (mkResponse 200 (JPost Sample.absent p)), st')
    /\ get_posts st' =
         (Normal (mkListResponse 200
                    (LPosts (Z.of_nat (size (posts st')))
                            ((Sample.absent, p) :: rest))), st').
Proof.
  apply (created_post_listed_first hex24 Sample.st1 Sample.absent 200
           Sample.bob "newest" (mkUser "Bob" "b.png")); try reflexivity.
  - discriminate.
  - intros id p Hp.
    assert (p = Sample.hello \/ p = Sample.other) as [-> | ->]; [|done|done].
    unfold Sample.st1 in Hp. simpl in Hp.
    destruct (decide (Sample.post1 = id)) as [<-|H1].
    + rewrite lookup_insert_eq in Hp. left. congruence.
    + rewrite lookup_insert_ne in Hp by done.
      destruct (decide (Sample.post2 = id)) as [<-|H2].
      * rewrite lookup_insert_eq in Hp. right. congruence.
      * rewrite lookup_insert_ne in Hp by done. by rewrite lookup_empty in Hp.
Defined.
